(** * The block-lifecycle coordinator of server/v2 (package appmanager)

    A shallow embedding of [server/v2/appmanager/service.go]: the genesis
    closure built by [AppManagerBuilder.Build], and the four entry points
    [BuildBlock], [DeliverBlock], [Simulate] and [Query] of [AppManager],
    together with the earlier [DeliverBlock] that has no optimistic cache.

    Conventions of the embedding.

    - A Go slice is an [option (list A)]: [None] is the [nil] slice, which
      the code tells apart from an allocated one in its [!= nil] tests;
      [range] and [bytes.Equal] see only the elements.
    - A Go interface value or a pointer to a collaborator is a record of
      functions over an abstract [World], the state of everything outside
      the coordinator (store, transaction pool, engine).
    - Every method of [AppManager] has a value receiver: the body works on
      a copy of the struct.  The cell behind the pointer [lastBlockHeight]
      is shared with the caller, the struct fields are not.  [invoke]
      restores the caller's struct when the body has returned.
    - The calls made to collaborators are recorded in a ghost trace, so
      that "the engine is not invoked" and "invoked once" can be stated. *)

From Stdlib Require Import NArith List.
From Stdlib.Strings Require Import Byte.
From stdpp Require Import base option list strings pretty gmap.

(** ** Go values *)

Module Go.

(** [nil] or an allocated slice. *)
Definition slice (A : Type) : Type := option (list A).

Definition elems {A} (s : slice A) : list A := default [] s.

Definition is_nil {A} (s : slice A) : bool :=
  match s with None => true | Some _ => false end.

Fixpoint bytes_eqb (x y : list byte) : bool :=
  match x, y with
  | [], [] => true
  | b :: x', c :: y' => Byte.eqb b c && bytes_eqb x' y'
  | _, _ => false
  end.

(** [bytes.Equal]: same length and same bytes; a nil argument is the
    same as an empty slice. *)
Definition bytes_Equal (x y : slice byte) : bool :=
  bytes_eqb (elems x) (elems y).

(** The [error] values that cross the coordinator's boundary.
    [Foreign e] is an error produced by a collaborator, [Wrapf msg err] is
    [fmt.Errorf(msg + ": %w", err)], and [Msgf msg] is [fmt.Errorf] with
    no wrapped error. *)
Inductive error (X : Type) : Type :=
| Foreign (e : X)
| Wrapf (msg : string) (err : error X)
| Msgf (msg : string).
Arguments Foreign {X} e.
Arguments Wrapf {X} msg err.
Arguments Msgf {X} msg.

End Go.

Import Go.

(** ** Data of the package *)

(** [type Tx struct { Tx []byte; Identifier string }] *)
Record Tx : Type := MkTx { Tx_bytes : slice byte; Identifier : string }.

(** [appmanager.BlockRequest] is declared in core/appmanager; the
    coordinator reads its fields [Height] (a uint64, given to
    [atomic.Uint64.Store]) and [Txs] (ranged over as byte strings). *)
Record BlockRequest : Type := MkBlock { Height : N; Txs : slice (slice byte) }.

Section Coordinator.

(** Types the coordinator passes around without looking inside. *)
Context {ChangeSet BlockResponse Hash WriterMap NewState ReadonlyState
         TxResult QType ExtError World : Type}.

Abbreviation err := (error ExtError).

(** [store.Store], as far as the coordinator uses it. *)
Record Store : Type := MkStore {
  NewStateAt : N → World → (WriterMap + ExtError) * World;
  ReadonlyStateAt : N → World → (ReadonlyState + ExtError) * World;
  CommitState : slice ChangeSet → World → (Hash + ExtError) * World
}.

(** [type TxPool interface { GetTxs(context.Context, uint32) ([]Tx, error) }] *)
Record TxPool : Type := MkTxPool {
  GetTxs : N → World → (slice Tx + ExtError) * World
}.

(** The methods of [*stf.STF] called here, and [ChangeSets] of the state
    that [stf.DeliverBlock] hands back.  [Simulate] returns a result and
    no error. *)
Record STF : Type := MkSTF {
  stf_DeliverBlock :
    BlockRequest → WriterMap → World → ((option BlockResponse * NewState) + ExtError) * World;
  ChangeSets : NewState → World → (slice ChangeSet + ExtError) * World;
  stf_Simulate : ReadonlyState → N → slice byte → World → TxResult * World;
  stf_Query : ReadonlyState → N → QType → World → (QType + ExtError) * World
}.

(** [type AppManager struct].  The pointer [lastBlockHeight] is not a
    field here: the cell it points to is [height] of [Env].  The field
    [initGenesis] is the closure [genesis] below. *)
Record AppManager : Type := MkAppManager {
  checkTxGasLimit : N;
  queryGasLimit : N;
  simulationGasLimit : N;
  db : Store;
  txpool : TxPool;
  stf : STF;
  cachedState : slice ChangeSet;
  cachedTx : slice Tx;
  cachedBlockResponse : option BlockResponse
}.

(** A call made to a collaborator, with what it answered. *)
Inductive Event : Type :=
| CallNewStateAt (h : N) (r : WriterMap + ExtError)
| CallReadonlyStateAt (h : N) (r : ReadonlyState + ExtError)
| CallCommitState (cs : slice ChangeSet) (r : Hash + ExtError)
| CallGetTxs (totalSize : N) (r : slice Tx + ExtError)
| CallPrepareBlock (txs : slice Tx) (r : (option BlockResponse * slice ChangeSet) + ExtError)
| CallStfDeliverBlock (block : BlockRequest) (st : WriterMap)
    (r : (option BlockResponse * NewState) + ExtError)
| CallChangeSets (st : NewState) (r : slice ChangeSet + ExtError)
| CallStfSimulate (st : ReadonlyState) (gas : N) (tx : slice byte) (r : TxResult)
| CallStfQuery (st : ReadonlyState) (gas : N) (req : QType) (r : QType + ExtError)
| CallInitGenesis (module : string) (payload : slice byte) (r : option ExtError).

(** What a method body runs in: its own copy of the receiver, the cell
    behind [lastBlockHeight], the outside world and the ghost trace. *)
Record Env : Type := MkEnv {
  receiver : AppManager;
  height : N;
  world : World;
  trace : list Event
}.

(** ** Statements of a method body

    A statement either falls through with a value or executes [return]. *)
Inductive outcome (R A : Type) : Type :=
| Next (a : A)
| Return (r : R).
Arguments Next {R A} a.
Arguments Return {R A} r.

Definition stmt (R A : Type) : Type := Env → outcome R A * Env.

Definition pure {R A} (a : A) : stmt R A := λ e, (Next a, e).

Definition seq {R A B} (m : stmt R A) (k : A → stmt R B) : stmt R B :=
  λ e, match m e with
       | (Next a, e') => k a e'
       | (Return r, e') => (Return r, e')
       end.

Definition return_ {R A} (r : R) : stmt R A := λ e, (Return r, e).

Definition self {R} : stmt R AppManager := λ e, (Next (receiver e), e).

(** An assignment to fields of the receiver copy. *)
Definition assign {R} (f : AppManager → AppManager) : stmt R unit :=
  λ e, (Next tt, MkEnv (f (receiver e)) (height e) (world e) (trace e)).

(** [a.lastBlockHeight.Load()] and [a.lastBlockHeight.Store(h)]. *)
Definition Height_Load {R} : stmt R N := λ e, (Next (height e), e).
Definition Height_Store {R} (h : N) : stmt R unit :=
  λ e, (Next tt, MkEnv (receiver e) h (world e) (trace e)).

(** A call to a collaborator, recorded in the trace. *)
Definition call {R A} (ev : A → Event) (f : World → A * World) : stmt R A :=
  λ e, let r := f (world e) in
       (Next r.1, MkEnv (receiver e) (height e) r.2 (trace e ++ [ev r.1])).

(** [x, err := f(...); if err != nil { return onerr(err) }] *)
Definition check {R A} (m : stmt R (A + ExtError)) (onerr : err → R) : stmt R A :=
  seq m (λ x, match x with
              | inl a => pure a
              | inr e => return_ (onerr (Foreign e))
              end).

Global Instance stmt_ret {R} : MRet (stmt R) := λ A, pure.
Global Instance stmt_bind {R} : MBind (stmt R) := λ A B k m, seq m k.

Definition run {R} (body : stmt R R) (e : Env) : R * Env :=
  match body e with
  | (Next r, e') => (r, e')
  | (Return r, e') => (r, e')
  end.

(** A method call on a value receiver: what the body did to its copy
    of the struct is dropped when it returns. *)
Definition invoke {R} (body : stmt R R) (e : Env) : R * Env :=
  let '(r, e') := run body e in
  (r, MkEnv (receiver e) (height e') (world e') (trace e')).

(** ** The optimistic cache slot *)

Definition set_cachedState (v : slice ChangeSet) (a : AppManager) : AppManager :=
  MkAppManager (checkTxGasLimit a) (queryGasLimit a) (simulationGasLimit a)
    (db a) (txpool a) (stf a) v (cachedTx a) (cachedBlockResponse a).

Definition set_cachedBlockResponse (v : option BlockResponse) (a : AppManager) : AppManager :=
  MkAppManager (checkTxGasLimit a) (queryGasLimit a) (simulationGasLimit a)
    (db a) (txpool a) (stf a) (cachedState a) (cachedTx a) v.

Definition set_cachedTx (v : slice Tx) (a : AppManager) : AppManager :=
  MkAppManager (checkTxGasLimit a) (queryGasLimit a) (simulationGasLimit a)
    (db a) (txpool a) (stf a) (cachedState a) v (cachedBlockResponse a).

(** The three cache fields, read together. *)
Definition slot (a : AppManager) : slice Tx * slice ChangeSet * option BlockResponse :=
  (cachedTx a, cachedState a, cachedBlockResponse a).

(** What the coordinator owns: the last committed height and the slot. *)
Definition owned (e : Env) : N * (slice Tx * slice ChangeSet * option BlockResponse) :=
  (height e, slot (receiver e)).

(** The slot cannot pass the test that guards reuse in [DeliverBlock]. *)
Definition invalidated (a : AppManager) : bool :=
  is_nil (cachedState a) || is_nil (cachedTx a).

(** ** BuildBlock *)

(** Modelled from the spec: [PrepareBlock], a method of [AppManager] that
    [BuildBlock] calls and that is not in service.go.  It executes the
    candidate transactions through the engine against a state view anchored
    at the next height and yields a block response and change-sets; it may
    read the coordinator (its fields, the last committed height) and act on
    the world, and it writes nothing of the coordinator. *)
Variable PrepareBlock :
  AppManager → N → slice Tx → World →
  ((option BlockResponse * slice ChangeSet) + ExtError) * World.

Definition BuildBlock (txs : slice Tx) (totalSize : N)
  : stmt (slice Tx + err) (slice Tx + err) :=
  a ← self;
  (* txs, err := a.txpool.GetTxs(ctx, totalSize): the parameter is overwritten *)
  txs ← check (call (CallGetTxs totalSize) (GetTxs (txpool a) totalSize)) inr;
  (* run txs through handler *)
  h ← Height_Load;
  '(bsr, changeSets) ← check (call (CallPrepareBlock txs) (PrepareBlock a h txs)) inr;
  (* cache the changes and txs to avoid execution later on *)
  if negb (is_nil changeSets) && bool_decide (is_Some bsr) then
    assign (set_cachedState changeSets);;
    assign (set_cachedBlockResponse bsr);;
    assign (set_cachedTx txs);;
    return_ (inl txs)
  else
    return_ (inl txs).

(** ** DeliverBlock *)

(** The inner loop: [for _, tx := range block.Txs], with its [break]. *)
Fixpoint range_block (cached : slice byte) (txs : list (slice byte)) (diff : bool) : bool :=
  match txs with
  | [] => diff
  | tx :: rest =>
      if negb (bytes_Equal cached tx) then true (* diff = true; break *)
      else range_block cached rest diff
  end.

(** The outer loop: [for _, txs := range a.cachedTx]. *)
Fixpoint range_cached (cached : list Tx) (txs : list (slice byte)) (diff : bool) : bool :=
  match cached with
  | [] => diff
  | c :: rest => range_cached rest txs (range_block (Tx_bytes c) txs diff)
  end.

Definition anchor_label (h : N) : string :=
  "unable to create new state for height " +:+ pretty h.

Abbreviation delivered := ((option BlockResponse * Hash) + err)%type.

Definition DeliverBlock (block : BlockRequest) : stmt delivered delivered :=
  a ← self;
  currentState ← check (call (CallNewStateAt (Height block)) (NewStateAt (db a) (Height block)))
                       (λ e, inr (Wrapf (anchor_label (Height block)) e));
  (* if we cached values, avoid rexecuting *)
  (if negb (is_nil (cachedState a)) && negb (is_nil (cachedTx a)) then
     let diff := range_cached (elems (cachedTx a)) (elems (Txs block)) false in
     if negb diff then
       stateRoot ← check (call (CallCommitState (cachedState a)) (CommitState (db a) (cachedState a)))
                         (λ e, inr (Wrapf "commit failed" e));
       return_ (inl (cachedBlockResponse a, stateRoot))
     else mret tt
   else mret tt);;
  '(blockResponse, newState) ←
     check (call (CallStfDeliverBlock block currentState) (stf_DeliverBlock (stf a) block currentState))
           (λ e, inr (Wrapf "block delivery failed" e));
  (* apply new state to store *)
  newStateChanges ← check (call (CallChangeSets newState) (ChangeSets (stf a) newState))
                          (λ e, inr (Wrapf "change set" e));
  stateRoot ← check (call (CallCommitState newStateChanges) (CommitState (db a) newStateChanges))
                    (λ e, inr (Wrapf "commit failed" e));
  (* update last stored block *)
  Height_Store (Height block);;
  return_ (inl (blockResponse, stateRoot)).

(** The [DeliverBlock] of the earlier file, which has no cache; the
    store's [NewBlockWithVersion] and [CommitChanges] are played by
    [NewStateAt] and [CommitState]. *)
Definition DeliverBlock_nocache (block : BlockRequest) : stmt delivered delivered :=
  a ← self;
  currentState ← check (call (CallNewStateAt (Height block)) (NewStateAt (db a) (Height block)))
                       (λ e, inr (Wrapf (anchor_label (Height block)) e));
  '(blockResponse, newState) ←
     check (call (CallStfDeliverBlock block currentState) (stf_DeliverBlock (stf a) block currentState))
           (λ e, inr (Wrapf "block delivery failed" e));
  newStateChanges ← check (call (CallChangeSets newState) (ChangeSets (stf a) newState))
                          (λ e, inr (Wrapf "change set" e));
  stateRoot ← check (call (CallCommitState newStateChanges) (CommitState (db a) newStateChanges))
                    (λ e, inr (Wrapf "commit failed" e));
  Height_Store (Height block);;
  return_ (inl (blockResponse, stateRoot)).

(** ** Simulate and Query *)

(** [getLatestState]: a read-only view of the state of the last
    committed block. *)
Definition getLatestState {R} : stmt R (ReadonlyState + ExtError) :=
  a ← self;
  lastBlock ← Height_Load;
  call (CallReadonlyStateAt lastBlock) (ReadonlyStateAt (db a) lastBlock).

Definition Simulate (tx : slice byte) : stmt (TxResult + err) (TxResult + err) :=
  a ← self;
  state ← check getLatestState inr;
  result ← call (CallStfSimulate state (simulationGasLimit a) tx)
                (stf_Simulate (stf a) state (simulationGasLimit a) tx);
  return_ (inl result).

Definition Query (request : QType) : stmt (QType + err) (QType + err) :=
  a ← self;
  queryState ← check getLatestState inr;
  r ← call (CallStfQuery queryState (queryGasLimit a) request)
           (stf_Query (stf a) queryState (queryGasLimit a) request);
  return_ (match r with inl response => inl response | inr e => inr (Foreign e) end).

(** ** Genesis *)

(** [func(ctx context.Context, moduleGenesisBytes []byte) error] *)
Definition Initializer : Type := slice byte → World → option ExtError * World.

(** [type AppManagerBuilder struct { InitGenesis map[string]func(...) error }] *)
Record AppManagerBuilder : Type := MkBuilder {
  InitGenesis : gmap string Initializer
}.

Definition RegisterInitGenesis (moduleName : string) (genesisFunc : Initializer)
  (b : AppManagerBuilder) : AppManagerBuilder :=
  MkBuilder (<[moduleName := genesisFunc]> (InitGenesis b)).

(** [genesisMap[module]]: the zero value, a nil slice, for a missing key. *)
Definition index (genesisMap : gmap string (slice byte)) (module : string) : slice byte :=
  default None (genesisMap !! module).

(** The payload an initializer is given by the loop. *)
Definition given (genesisMap : gmap string (slice byte)) (entry : string * Initializer)
  : string * slice byte :=
  (entry.1, index genesisMap entry.1).

(** [for module, genesisFunc := range a.InitGenesis { ... }; return nil],
    over the entries in the order in which the runtime yields them. *)
Fixpoint genesis_range (genesisMap : gmap string (slice byte))
  (entries : list (string * Initializer)) (w : World) (tr : list Event)
  : option err * World * list Event :=
  match entries with
  | [] => (None, w, tr)
  | (module, genesisFunc) :: rest =>
      let '(r, w') := genesisFunc (index genesisMap module) w in
      let tr' := tr ++ [CallInitGenesis module (index genesisMap module) r] in
      match r with
      | Some _ => (Some (Msgf ("failed to init genesis on module: " +:+ module)), w', tr')
      | None => genesis_range genesisMap rest w' tr'
      end
  end.

(** The closure that [Build] stores in [initGenesis].  [iteration] is the
    order in which [range] visits a map, which Go leaves to the runtime. *)
Definition genesis
  (iteration : gmap string Initializer → list (string * Initializer))
  (b : AppManagerBuilder) (genesisBytes : slice byte) (w : World) (tr : list Event)
  : option err * World * list Event :=
  let genesisMap : gmap string (slice byte) := ∅ in (* module=> genesis bytes *)
  genesis_range genesisMap (iteration (InitGenesis b)) w tr.

(** [Build]: the coordinator it returns has [initGenesis] set to the
    closure and every other field zero.  The closure holds the pointer
    [a] to the builder and takes no copy of its map: it ranges over
    [a.InitGenesis] as that map is when the closure is called, so a
    module registered after [Build] is initialized as well.  The first
    argument of the closure is the builder behind that pointer at the
    time of the call. *)
Definition Build
  (iteration : gmap string Initializer → list (string * Initializer))
  : AppManagerBuilder → slice byte → World → list Event → option err * World * list Event :=
  λ at_call genesisBytes w tr, genesis iteration at_call genesisBytes w tr.

(** ** Stages of a delivery, for the labels of its errors *)

Inductive Stage : Type := Anchor | Execution | ChangeSetDerivation | Commit.

Definition stage_label (st : Stage) (h : N) : string :=
  match st with
  | Anchor => anchor_label h
  | Execution => "block delivery failed"
  | ChangeSetDerivation => "change set"
  | Commit => "commit failed"
  end.

(** The stage a failed call belongs to, and the error it answered. *)
Definition failed_stage (ev : Event) : option (Stage * ExtError) :=
  match ev with
  | CallNewStateAt _ (inr x) => Some (Anchor, x)
  | CallStfDeliverBlock _ _ (inr x) => Some (Execution, x)
  | CallChangeSets _ (inr x) => Some (ChangeSetDerivation, x)
  | CallCommitState _ (inr x) => Some (Commit, x)
  | _ => None
  end.

Definition is_execution (ev : Event) : bool :=
  match ev with CallStfDeliverBlock _ _ _ => true | _ => false end.

(** How often the engine's execution path was entered. *)
Definition executions (tr : list Event) : nat := length (List.filter is_execution tr).

(** The change-sets handed to [CommitState], in order. *)
Definition committed (tr : list Event) : list (slice ChangeSet) :=
  omap (λ ev, match ev with CallCommitState cs (inl _) => Some cs | _ => None end) tr.

(** The initializers invoked, in order, with the payload each received. *)
Definition initialized (tr : list Event) : list (string * slice byte) :=
  omap (λ ev, match ev with CallInitGenesis m p _ => Some (m, p) | _ => None end) tr.

End Coordinator.

(** ** A concrete node

    Collaborators small enough to run: a store that keeps the log of
    what was committed and answers with it as the root, an engine that
    derives one change-set from each transaction it executes, and a pool
    that always offers the transaction [A]. *)

Module Scenario.

(** [appmanager.TxResult] is declared in core/appmanager.  The engine's
    [Simulate] returns nothing else, so a failure of a simulated
    transaction can only be reported inside the result. *)
Record TxResult : Type := MkTxResult { GasUsed : N; Error : option string }.

Definition A : slice byte := Some ["A"%byte].
Definition B : slice byte := Some ["B"%byte].
Definition C : slice byte := Some ["C"%byte].

Definition root (log : list (slice string)) : list (slice string) := log.

Definition store : Store (ChangeSet := string) (Hash := list (slice string))
    (WriterMap := N) (ReadonlyState := N) (ExtError := string)
    (World := list (slice string)) :=
  MkStore
    (λ h w, if (h =? 0)%N then (inr "no state before height 0", w) else (inl h, w))
    (λ h w, (inl h, w))
    (λ cs w, (inl (root (w ++ [cs])), w ++ [cs])).

Definition pool : TxPool (ExtError := string) (World := list (slice string)) :=
  MkTxPool (λ _ w, (inl (Some [MkTx A "a"]), w)).

Definition engine : STF (ChangeSet := string) (BlockResponse := string)
    (WriterMap := N) (NewState := list (slice byte)) (ReadonlyState := N)
    (TxResult := TxResult) (QType := string) (ExtError := string)
    (World := list (slice string)) :=
  MkSTF
    (λ block _ w, (inl (Some "executed", elems (Txs block)), w))
    (λ st w, (inl (Some (map (λ tx, String.string_of_list_byte (elems tx)) st)), w))
    (λ _ gas tx w,
       (MkTxResult gas (if bytes_Equal tx None then Some "tx: empty" else None), w))
    (λ _ _ req w, (inl req, w)).

Definition manager : Type :=
  @AppManager string string (list (slice string)) N (list (slice byte)) N
    TxResult string string (list (slice string)).

Definition prepare (a : manager) (h : N) (txs : slice Tx) (w : list (slice string))
  : ((option string * slice string) + string) * list (slice string) :=
  (inl (Some "R1", Some ["CS1"]), w).

(** A coordinator whose slot is empty, and one whose slot holds the
    batch [{txs, CS1, R1}]. *)
Definition fresh : manager :=
  MkAppManager 0 100 200 store pool engine None None None.

Definition holding (txs : list Tx) : manager :=
  MkAppManager 0 100 200 store pool engine (Some ["CS1"]) (Some txs) (Some "R1").

Definition cached : manager := holding [MkTx A "a"; MkTx B "b"].

(** The node after block 4, nothing committed in the log yet. *)
Definition node (a : manager) : Env := MkEnv a 4 [] [].

Definition bank : Initializer (ExtError := string) (World := list (slice string)) :=
  λ payload w, (None, w ++ [Some [String.string_of_list_byte (elems payload)]]).

Definition builder : AppManagerBuilder :=
  RegisterInitGenesis "bank" bank (MkBuilder ∅).

Definition event : Type :=
  @Event string string (list (slice string)) N (list (slice byte)) N TxResult string string.

End Scenario.

(** ** Collaborators that fail

    The same node with a pool that is closed, a [PrepareBlock] that
    gives up, an engine that rejects every block, a store that cannot
    commit, and a second genesis module whose initializer fails. *)

Module Faulty.

Import Scenario.

Definition closed_pool : TxPool (ExtError := string) (World := list (slice string)) :=
  MkTxPool (λ _ w, (inr "pool closed", w)).

Definition starved : manager :=
  MkAppManager 0 100 200 store closed_pool engine None None None.

Definition rejecting : STF (ChangeSet := string) (BlockResponse := string)
    (WriterMap := N) (NewState := list (slice byte)) (ReadonlyState := N)
    (TxResult := TxResult) (QType := string) (ExtError := string)
    (World := list (slice string)) :=
  MkSTF
    (λ _ _ w, (inr "invalid block", w))
    (ChangeSets engine)
    (stf_Simulate engine)
    (λ _ _ _ w, (inr "unknown query", w)).

Definition stuck : manager :=
  MkAppManager 0 100 200 store pool rejecting None None None.

Definition full_disk : Store (ChangeSet := string) (Hash := list (slice string))
    (WriterMap := N) (ReadonlyState := N) (ExtError := string)
    (World := list (slice string)) :=
  MkStore (NewStateAt store) (ReadonlyStateAt store) (λ _ w, (inr "disk full", w)).

Definition unwritable : manager :=
  MkAppManager 0 100 200 full_disk pool engine None None None.

Definition unreadable : STF (ChangeSet := string) (BlockResponse := string)
    (WriterMap := N) (NewState := list (slice byte)) (ReadonlyState := N)
    (TxResult := TxResult) (QType := string) (ExtError := string)
    (World := list (slice string)) :=
  MkSTF
    (stf_DeliverBlock engine)
    (λ _ w, (inr "state unreadable", w))
    (stf_Simulate engine)
    (stf_Query engine).

Definition undiffable : manager :=
  MkAppManager 0 100 200 store pool unreadable None None None.

(** The store cannot commit and the slot holds the batch built from [A]. *)
Definition unwritable_holding : manager :=
  MkAppManager 0 100 200 full_disk pool engine
    (Some ["CS1"]) (Some [MkTx A "a"]) (Some "R1").

Definition staking : Initializer (ExtError := string) (World := list (slice string)) :=
  λ _ w, (Some "no validators", w).

Definition broken_builder : AppManagerBuilder :=
  RegisterInitGenesis "staking" staking builder.

End Faulty.

(** * Properties *)

(** ** The comparison of the two transaction lists *)

Lemma bytes_eqb_eq (x y : list byte) : bytes_eqb x y = true ↔ x = y.
Proof.
  revert y; induction x as [|b x IH]; intros [|c y]; simpl; try (split; congruence).
  rewrite andb_true_iff, IH. split.
  - intros [Hb ->]. by rewrite (Byte.byte_dec_bl _ _ Hb).
  - intros [= -> ->]. split; [by apply Byte.byte_dec_lb | done].
Qed.

Lemma bytes_Equal_elems (x y : slice byte) :
  bytes_Equal x y = true ↔ elems x = elems y.
Proof. apply bytes_eqb_eq. Qed.

Lemma range_block_existsb (c : slice byte) (txs : list (slice byte)) (diff : bool) :
  range_block c txs diff = diff || existsb (λ tx, negb (bytes_Equal c tx)) txs.
Proof.
  induction txs as [|tx txs IH]; simpl.
  - by rewrite orb_false_r.
  - destruct (bytes_Equal c tx); simpl; [done | by rewrite orb_true_r].
Qed.

Lemma range_cached_existsb (cached : list Tx) (txs : list (slice byte)) (diff : bool) :
  range_cached cached txs diff
  = diff || existsb (λ c, existsb (λ tx, negb (bytes_Equal (Tx_bytes c) tx)) txs) cached.
Proof.
  revert diff; induction cached as [|c cached IH]; intros diff; simpl.
  - by rewrite orb_false_r.
  - by rewrite IH, range_block_existsb, orb_assoc.
Qed.

(** The loops leave [diff] false exactly when every cached transaction
    equals every transaction of the block: all pairs, not position by
    position. *)
Lemma range_cached_all_pairs (cached : list Tx) (txs : list (slice byte)) :
  range_cached cached txs false = false ↔
  ∀ c tx, c ∈ cached → tx ∈ txs → elems (Tx_bytes c) = elems tx.
Proof.
  rewrite range_cached_existsb; simpl. split.
  - intros H c tx Hc Htx. apply bytes_Equal_elems.
    destruct (bytes_Equal (Tx_bytes c) tx) eqn:E; [done | exfalso].
    apply not_true_iff_false in H. apply H, existsb_exists.
    exists c. split; [by apply list_elem_of_In |].
    apply existsb_exists. exists tx. split; [by apply list_elem_of_In |].
    by rewrite E.
  - intros H. apply not_true_iff_false.
    intros (c & Hc & (tx & Htx & E)%existsb_exists)%existsb_exists.
    apply list_elem_of_In in Hc, Htx.
    apply (H c tx Hc), bytes_Equal_elems in Htx. by rewrite Htx in E.
Qed.

(** A block without transactions differs from nothing. *)
Lemma range_cached_empty_block (cached : list Tx) :
  range_cached cached [] false = false.
Proof. apply range_cached_all_pairs. intros c tx _ Htx. by apply elem_of_nil in Htx. Qed.

(** A cached list with two different transactions sets [diff] against
    the very same list. *)
Lemma range_cached_same_list (cached : list Tx) (c1 c2 : Tx) :
  c1 ∈ cached → c2 ∈ cached → elems (Tx_bytes c1) ≠ elems (Tx_bytes c2) →
  range_cached cached (Tx_bytes <$> cached) false = true.
Proof.
  intros H1 H2 Hne. apply not_false_iff_true. intros H.
  apply Hne. rewrite range_cached_all_pairs in H.
  apply (H c1 (Tx_bytes c2) H1). apply list_elem_of_fmap. eauto.
Qed.

(** Unfolds the statements of a method body down to plain matches. *)
Ltac body :=
  unfold invoke, run, getLatestState, check, call, self, assign, Height_Load,
    Height_Store, return_, mbind, mret, stmt_bind, stmt_ret, seq, pure in *;
  cbn in *.

(** Case analysis on the next answer of a collaborator. *)
Ltac answer :=
  match goal with
  | |- context [match fst ?r with _ => _ end] => destruct r as [[?|?] ?] eqn:?
  | H : context [match fst ?r with _ => _ end] |- _ => destruct r as [[?|?] ?] eqn:?
  end;
  repeat match goal with p : (_ * _)%type |- _ => destruct p end;
  cbn in *.

(** Case analysis on the next test of the body. *)
Ltac branch :=
  match goal with
  | |- context [if ?c then _ else _] => destruct c eqn:?
  | H : context [if ?c then _ else _] |- _ => destruct c eqn:?
  end; cbn in *.

Section Properties.

Context {ChangeSet BlockResponse Hash WriterMap NewState ReadonlyState
         TxResult QType ExtError World : Type}.

Abbreviation Manager :=
  (@AppManager ChangeSet BlockResponse Hash WriterMap NewState ReadonlyState
     TxResult QType ExtError World).
Abbreviation Node :=
  (@Env ChangeSet BlockResponse Hash WriterMap NewState ReadonlyState
     TxResult QType ExtError World).

Abbreviation Call :=
  (@Event ChangeSet BlockResponse Hash WriterMap NewState ReadonlyState
     TxResult QType ExtError).

Variable PrepareBlock :
  Manager → N → slice Tx → World →
  ((option BlockResponse * slice ChangeSet) + ExtError) * World.

(** Whatever the body did, the caller's struct is the one it had. *)
Lemma invoke_receiver {R} (m : stmt R R) (e : Node) :
  receiver (invoke m e).2 = receiver e.
Proof. unfold invoke. by destruct (run m e). Qed.

Lemma invoke_run {R} (m : stmt R R) (e : Node) :
  (invoke m e).1 = (run m e).1 ∧
  height (invoke m e).2 = height (run m e).2 ∧
  world (invoke m e).2 = world (run m e).2 ∧
  trace (invoke m e).2 = trace (run m e).2.
Proof. unfold invoke. by destruct (run m e). Qed.

(** ** DeliverBlock *)

(** The body of [DeliverBlock] assigns to no field of its receiver. *)
Lemma DeliverBlock_receiver (block : BlockRequest) (e : Node) :
  receiver (run (DeliverBlock block) e).2 = receiver e.
Proof.
  unfold DeliverBlock; body.
  answer; [|done].
  repeat (first [answer | branch]; try done).
Qed.

(** C4.  Whenever a call that [DeliverBlock] makes (anchoring the state
    view, executing the block, deriving the change-sets, committing, on
    the engine path or from the slot) answers an error, [DeliverBlock]
    aborts there: that call is the last one it makes, it returns that
    error wrapped with the label of the stage, and the last committed
    height is what it was before.  And [DeliverBlock] returns an error
    in no other way: an error returned is the wrapped error of the last
    call made, which failed, with the height unchanged. *)
Theorem DeliverBlock_failure (block : BlockRequest) (e : Node) :
  ∃ new,
    trace (invoke (DeliverBlock block) e).2 = trace e ++ new ∧
    (∀ ev st cause,
       ev ∈ new → failed_stage ev = Some (st, cause) →
       (invoke (DeliverBlock block) e).1
       = inr (Wrapf (stage_label st (Height block)) (Foreign cause)) ∧
       last new = Some ev ∧
       height (invoke (DeliverBlock block) e).2 = height e) ∧
    (∀ x,
       (invoke (DeliverBlock block) e).1 = inr x →
       height (invoke (DeliverBlock block) e).2 = height e ∧
       ∃ st cause ev,
         x = Wrapf (stage_label st (Height block)) (Foreign cause) ∧
         last (trace (invoke (DeliverBlock block) e).2) = Some ev ∧
         failed_stage ev = Some (st, cause) ∧
         ev ∈ new).
Proof.
  unfold DeliverBlock; body.
  repeat (first [answer | branch]);
    (eexists; split; [rewrite <- ?app_assoc; reflexivity |]); cbn; split.
  all: try (intros ev st cause Hin Hf;
            repeat (apply elem_of_cons in Hin as [-> | Hin]);
            try (by apply elem_of_nil in Hin);
            cbn in Hf; simplify_eq; by repeat split).
  all: intros x Hx; simplify_eq.
  all: (split; [done |]); eexists _, _, _;
    (split; [| split; [apply last_snoc | split; [reflexivity |]]]);
    [reflexivity | rewrite !elem_of_cons; tauto].
Qed.

(** The sibling without a cache stores the height on its only
    successful path. *)
Lemma DeliverBlock_nocache_height (block : BlockRequest) (e : Node) r :
  (invoke (DeliverBlock_nocache block) e).1 = inl r →
  height (invoke (DeliverBlock_nocache block) e).2 = Height block.
Proof.
  unfold DeliverBlock_nocache; body.
  repeat (first [answer | branch]); by intros [= <-].
Qed.

(** So does [DeliverBlock] when it goes through the engine. *)
Lemma DeliverBlock_executed_height (block : BlockRequest) (e : Node) r :
  (invoke (DeliverBlock block) e).1 = inl r →
  executions (trace (invoke (DeliverBlock block) e).2) = S (executions (trace e)) →
  height (invoke (DeliverBlock block) e).2 = Height block.
Proof.
  unfold DeliverBlock, executions; body.
  repeat (first [answer | branch]); intros [= <-];
    rewrite ?List.filter_app, ?length_app; cbn; try done; lia.
Qed.

(** X2.  The path that reuses the batch: taken when both cached slices are
    allocated and the loops found no difference.  It commits the cached
    change-sets, answers with the cached response, enters the engine
    not at all, and leaves the height alone. *)
Lemma DeliverBlock_reuse (block : BlockRequest) (e : Node) st w root w' :
  let a := receiver e in
  NewStateAt (db a) (Height block) (world e) = (inl st, w) →
  is_nil (cachedState a) = false →
  is_nil (cachedTx a) = false →
  range_cached (elems (cachedTx a)) (elems (Txs block)) false = false →
  CommitState (db a) (cachedState a) w = (inl root, w') →
  invoke (DeliverBlock block) e
  = (inl (cachedBlockResponse a, root),
     MkEnv a (height e) w'
       (trace e ++ [CallNewStateAt (Height block) (inl st);
                    CallCommitState (cachedState a) (inl root)])).
Proof.
  intros a H1 H2 H3 H4 H5. unfold DeliverBlock; body. fold a.
  rewrite H1; cbn. rewrite H2, H3, H4; cbn. rewrite H5; cbn.
  by rewrite <- app_assoc.
Qed.

(** X3.  The path through the engine, taken otherwise. *)
Lemma DeliverBlock_execute (block : BlockRequest) (e : Node)
    st w resp ns w1 cs w2 root w3 :
  let a := receiver e in
  NewStateAt (db a) (Height block) (world e) = (inl st, w) →
  (is_nil (cachedState a) = true ∨ is_nil (cachedTx a) = true ∨
   range_cached (elems (cachedTx a)) (elems (Txs block)) false = true) →
  stf_DeliverBlock (stf a) block st w = (inl (resp, ns), w1) →
  ChangeSets (stf a) ns w1 = (inl cs, w2) →
  CommitState (db a) cs w2 = (inl root, w3) →
  invoke (DeliverBlock block) e
  = (inl (resp, root),
     MkEnv a (Height block) w3
       (trace e ++ [CallNewStateAt (Height block) (inl st);
                    CallStfDeliverBlock block st (inl (resp, ns));
                    CallChangeSets ns (inl cs);
                    CallCommitState cs (inl root)])).
Proof.
  intros a H1 H2 H3 H4 H5. unfold DeliverBlock; body. fold a.
  rewrite H1; cbn.
  assert (negb (is_nil (cachedState a)) && negb (is_nil (cachedTx a))
          && negb (range_cached (elems (cachedTx a)) (elems (Txs block)) false) = false) as H.
  { destruct H2 as [-> | [-> | ->]]; cbn; by rewrite ?andb_false_r. }
  destruct (negb (is_nil (cachedState a)) && negb (is_nil (cachedTx a))) eqn:E1; cbn in *.
  - rewrite H; cbn. rewrite H3; cbn. rewrite H4; cbn. rewrite H5; cbn.
    by rewrite <- !app_assoc.
  - rewrite H3; cbn. rewrite H4; cbn. rewrite H5; cbn.
    by rewrite <- !app_assoc.
Qed.

(** *** Each stage that fails, from the answer of the collaborator *)

(** The test that guards reuse fails under any of the three reasons for
    going through the engine. *)
Lemma reuse_refused (a : Manager) (block : BlockRequest) :
  (is_nil (cachedState a) = true ∨ is_nil (cachedTx a) = true ∨
   range_cached (elems (cachedTx a)) (elems (Txs block)) false = true) →
  (if negb (is_nil (cachedState a)) && negb (is_nil (cachedTx a))
   then negb (range_cached (elems (cachedTx a)) (elems (Txs block)) false)
   else false) = false.
Proof.
  intros [-> | [-> | ->]]; cbn; [done | | ].
  - by rewrite andb_false_r.
  - by destruct (_ && _).
Qed.

(** Walks the engine path of [DeliverBlock] along the given answers. *)
Ltac engine_path a Hgate :=
  unfold DeliverBlock; body; fold a;
  repeat match goal with
         | H : _ = (_, _) |- _ => rewrite H; clear H; cbn
         end;
  pose proof (reuse_refused _ _ Hgate) as Hno; fold a in Hno;
  destruct (negb (is_nil (cachedState a)) && negb (is_nil (cachedTx a))); cbn in *;
  [rewrite Hno; cbn |];
  repeat match goal with
         | H : _ = (_, _) |- _ => rewrite H; clear H; cbn
         end;
  by rewrite <- ?app_assoc.

(** [NewStateAt] fails: nothing else is called. *)
Lemma DeliverBlock_anchor_error (block : BlockRequest) (e : Node) x w :
  let a := receiver e in
  NewStateAt (db a) (Height block) (world e) = (inr x, w) →
  invoke (DeliverBlock block) e
  = (inr (Wrapf (anchor_label (Height block)) (Foreign x)),
     MkEnv a (height e) w (trace e ++ [CallNewStateAt (Height block) (inr x)])).
Proof.
  intros a H. unfold DeliverBlock; body. fold a. by rewrite H.
Qed.

(** The commit of the cached change-sets fails. *)
Lemma DeliverBlock_reuse_commit_error (block : BlockRequest) (e : Node) st w x w' :
  let a := receiver e in
  NewStateAt (db a) (Height block) (world e) = (inl st, w) →
  is_nil (cachedState a) = false →
  is_nil (cachedTx a) = false →
  range_cached (elems (cachedTx a)) (elems (Txs block)) false = false →
  CommitState (db a) (cachedState a) w = (inr x, w') →
  invoke (DeliverBlock block) e
  = (inr (Wrapf "commit failed" (Foreign x)),
     MkEnv a (height e) w'
       (trace e ++ [CallNewStateAt (Height block) (inl st);
                    CallCommitState (cachedState a) (inr x)])).
Proof.
  intros a H1 H2 H3 H4 H5. unfold DeliverBlock; body. fold a.
  rewrite H1; cbn. rewrite H2, H3, H4; cbn. rewrite H5; cbn.
  by rewrite <- app_assoc.
Qed.

(** The engine fails on the block. *)
Lemma DeliverBlock_execution_error (block : BlockRequest) (e : Node) st w x w1 :
  let a := receiver e in
  NewStateAt (db a) (Height block) (world e) = (inl st, w) →
  (is_nil (cachedState a) = true ∨ is_nil (cachedTx a) = true ∨
   range_cached (elems (cachedTx a)) (elems (Txs block)) false = true) →
  stf_DeliverBlock (stf a) block st w = (inr x, w1) →
  invoke (DeliverBlock block) e
  = (inr (Wrapf "block delivery failed" (Foreign x)),
     MkEnv a (height e) w1
       (trace e ++ [CallNewStateAt (Height block) (inl st);
                    CallStfDeliverBlock block st (inr x)])).
Proof. intros a H1 Hgate H2. engine_path a Hgate. Qed.

(** The change-sets cannot be derived from the new state. *)
Lemma DeliverBlock_change_set_error (block : BlockRequest) (e : Node)
    st w resp ns w1 x w2 :
  let a := receiver e in
  NewStateAt (db a) (Height block) (world e) = (inl st, w) →
  (is_nil (cachedState a) = true ∨ is_nil (cachedTx a) = true ∨
   range_cached (elems (cachedTx a)) (elems (Txs block)) false = true) →
  stf_DeliverBlock (stf a) block st w = (inl (resp, ns), w1) →
  ChangeSets (stf a) ns w1 = (inr x, w2) →
  invoke (DeliverBlock block) e
  = (inr (Wrapf "change set" (Foreign x)),
     MkEnv a (height e) w2
       (trace e ++ [CallNewStateAt (Height block) (inl st);
                    CallStfDeliverBlock block st (inl (resp, ns));
                    CallChangeSets ns (inr x)])).
Proof. intros a H1 Hgate H2 H3. engine_path a Hgate. Qed.

(** The commit of the derived change-sets fails. *)
Lemma DeliverBlock_commit_error (block : BlockRequest) (e : Node)
    st w resp ns w1 cs w2 x w3 :
  let a := receiver e in
  NewStateAt (db a) (Height block) (world e) = (inl st, w) →
  (is_nil (cachedState a) = true ∨ is_nil (cachedTx a) = true ∨
   range_cached (elems (cachedTx a)) (elems (Txs block)) false = true) →
  stf_DeliverBlock (stf a) block st w = (inl (resp, ns), w1) →
  ChangeSets (stf a) ns w1 = (inl cs, w2) →
  CommitState (db a) cs w2 = (inr x, w3) →
  invoke (DeliverBlock block) e
  = (inr (Wrapf "commit failed" (Foreign x)),
     MkEnv a (height e) w3
       (trace e ++ [CallNewStateAt (Height block) (inl st);
                    CallStfDeliverBlock block st (inl (resp, ns));
                    CallChangeSets ns (inl cs);
                    CallCommitState cs (inr x)])).
Proof. intros a H1 Hgate H2 H3 H4. engine_path a Hgate. Qed.

(** C5, as the code has it.  [DeliverBlock] writes none of the three
    cache fields: the slot of its receiver is the same at every return,
    and so is the slot of the caller. *)
Theorem DeliverBlock_keeps_slot (block : BlockRequest) (e : Node) :
  slot (receiver (run (DeliverBlock block) e).2) = slot (receiver e) ∧
  slot (receiver (invoke (DeliverBlock block) e).2) = slot (receiver e).
Proof. by rewrite DeliverBlock_receiver, invoke_receiver. Qed.

(** ** What a delivery does to the store and the engine *)

(** Brings the counters of a trace that grew by single calls back to
    those of the trace it grew from. *)
Ltac tally :=
  unfold executions, committed;
  rewrite ?List.filter_app, ?length_app, ?omap_app; cbn;
  rewrite ?app_nil_r, ?Nat.add_0_r.

(** X4.  A successful [DeliverBlock] went one of two ways.  Through the
    engine: one execution, one commit, and the height is the block's.
    From the slot: no execution, one commit, of the cached change-sets,
    the cached response returned, and the height left as it was. *)
Theorem DeliverBlock_success (block : BlockRequest) (e : Node)
    (r : option BlockResponse * Hash) :
  (invoke (DeliverBlock block) e).1 = inl r →
  (executions (trace (invoke (DeliverBlock block) e).2) = executions (trace e) + 1 ∧
   height (invoke (DeliverBlock block) e).2 = Height block ∧
   ∃ cs, committed (trace (invoke (DeliverBlock block) e).2) = committed (trace e) ++ [cs])
  ∨
  (executions (trace (invoke (DeliverBlock block) e).2) = executions (trace e) ∧
   height (invoke (DeliverBlock block) e).2 = height e ∧
   invalidated (receiver e) = false ∧
   range_cached (elems (cachedTx (receiver e))) (elems (Txs block)) false = false ∧
   r.1 = cachedBlockResponse (receiver e) ∧
   committed (trace (invoke (DeliverBlock block) e).2)
   = committed (trace e) ++ [cachedState (receiver e)]).
Proof.
  unfold DeliverBlock, invalidated; body.
  repeat (first [answer | branch]); intros [= <-]; tally.
  - right. repeat split; try done; try lia.
    + by destruct (cachedState (receiver e)), (cachedTx (receiver e)).
    + by destruct (range_cached _ _ _).
  - left. repeat split; try done; try lia. eauto.
  - left. repeat split; try done; try lia. eauto.
Qed.

(** X5.  A failed [DeliverBlock] has committed nothing, and has entered the
    engine at most once. *)
Theorem DeliverBlock_failure_commits_nothing (block : BlockRequest) (e : Node)
    (x : error ExtError) :
  (invoke (DeliverBlock block) e).1 = inr x →
  committed (trace (invoke (DeliverBlock block) e).2) = committed (trace e) ∧
  executions (trace (invoke (DeliverBlock block) e).2) ≤ executions (trace e) + 1.
Proof.
  unfold DeliverBlock; body.
  repeat (first [answer | branch]); intros [= <-]; tally; split; try done; lia.
Qed.

(** X1.  Once the state view is anchored, [DeliverBlock] stays out of the
    engine exactly when both cached slices are allocated and every
    cached transaction has the bytes of every transaction of the block;
    in every other case it executes the block. *)
Theorem DeliverBlock_reuses_iff (block : BlockRequest) (e : Node) st w :
  NewStateAt (db (receiver e)) (Height block) (world e) = (inl st, w) →
  executions (trace (invoke (DeliverBlock block) e).2) = executions (trace e) ↔
  invalidated (receiver e) = false ∧
  ∀ c tx, c ∈ elems (cachedTx (receiver e)) → tx ∈ elems (Txs block) →
          elems (Tx_bytes c) = elems tx.
Proof.
  intros H. rewrite <- range_cached_all_pairs.
  unfold DeliverBlock, invalidated; body. rewrite H; cbn.
  destruct (cachedState (receiver e)) as [cs |], (cachedTx (receiver e)) as [ctx |]; cbn;
    [destruct (range_cached ctx (elems (Txs block)) false); cbn | ..];
    repeat (first [answer | branch]); tally;
    (split; [intros; first [lia | done] | first [by intros [? ?] | intros; lia]]).
Qed.

(** ** The DeliverBlock without a cache *)

(** X6.  A successful delivery has executed the block once, committed once,
    and stored the block's height. *)
Theorem DeliverBlock_nocache_success (block : BlockRequest) (e : Node)
    (r : option BlockResponse * Hash) :
  (invoke (DeliverBlock_nocache block) e).1 = inl r →
  height (invoke (DeliverBlock_nocache block) e).2 = Height block ∧
  executions (trace (invoke (DeliverBlock_nocache block) e).2) = executions (trace e) + 1 ∧
  ∃ cs, committed (trace (invoke (DeliverBlock_nocache block) e).2)
        = committed (trace e) ++ [cs].
Proof.
  unfold DeliverBlock_nocache; body.
  repeat (first [answer | branch]); intros [= <-]; tally.
  repeat split; try done; try lia. eauto.
Qed.

(** X7.  A failed delivery returns the error of the last call made, wrapped
    with the label of its stage, has committed nothing, and leaves the
    height as it was. *)
Theorem DeliverBlock_nocache_failure (block : BlockRequest) (e : Node)
    (x : error ExtError) :
  (invoke (DeliverBlock_nocache block) e).1 = inr x →
  height (invoke (DeliverBlock_nocache block) e).2 = height e ∧
  committed (trace (invoke (DeliverBlock_nocache block) e).2) = committed (trace e) ∧
  ∃ st cause ev,
    x = Wrapf (stage_label st (Height block)) (Foreign cause) ∧
    last (trace (invoke (DeliverBlock_nocache block) e).2) = Some ev ∧
    failed_stage ev = Some (st, cause).
Proof.
  unfold DeliverBlock_nocache; body.
  repeat (first [answer | branch]); intros [= <-]; (split; [done |]);
    (split; [by tally |]);
    eexists _, _, _; (split; [| split; [apply last_snoc | reflexivity]]); reflexivity.
Qed.

(** X8.  With a slot that cannot pass the test for reuse, [DeliverBlock] is
    the delivery without a cache. *)
Theorem DeliverBlock_without_slot (block : BlockRequest) (e : Node) :
  invalidated (receiver e) = true →
  invoke (DeliverBlock block) e = invoke (DeliverBlock_nocache block) e.
Proof.
  unfold invalidated, DeliverBlock, DeliverBlock_nocache; body. intros H.
  assert (negb (is_nil (cachedState (receiver e))) && negb (is_nil (cachedTx (receiver e)))
          = false) as ->.
  { by destruct (cachedState (receiver e)), (cachedTx (receiver e)). }
  reflexivity.
Qed.

(** ** BuildBlock *)

(** X9.  A failed [BuildBlock] returns the error of the pool or of
    [PrepareBlock] as it got it, and its body has assigned nothing. *)
Lemma BuildBlock_failure (txs : slice Tx) (n : N) (e : Node) (x : error ExtError) :
  (run (BuildBlock PrepareBlock txs n) e).1 = inr x →
  receiver (run (BuildBlock PrepareBlock txs n) e).2 = receiver e ∧
  ∃ cause ev,
    x = Foreign cause ∧
    last (trace (run (BuildBlock PrepareBlock txs n) e).2) = Some ev ∧
    (ev = CallGetTxs n (inr cause) ∨ ∃ got, ev = CallPrepareBlock got (inr cause)).
Proof.
  unfold BuildBlock; body.
  repeat (first [answer | branch]); intros [= <-]; (split; [done |]);
    eexists _, _; (split; [reflexivity |]); (split; [apply last_snoc |]); eauto.
Qed.

(** A successful [BuildBlock] returns the list the pool gave. *)
Lemma BuildBlock_returns_pool (txs : slice Tx) (n : N) (e : Node) (got : slice Tx) :
  (run (BuildBlock PrepareBlock txs n) e).1 = inl got →
  (GetTxs (txpool (receiver e)) n (world e)).1 = inl got.
Proof.
  unfold BuildBlock; body.
  repeat (first [answer | branch]); by intros [= <-].
Qed.

(** When the pool and [PrepareBlock] succeed with an allocated
    change-set slice and a response, the body assigns the batch to the
    three cache fields of its receiver. *)
Lemma BuildBlock_body_assigns (txs : slice Tx) (n : N) (e : Node)
    got w bsr cs w' :
  let a := receiver e in
  GetTxs (txpool a) n (world e) = (inl got, w) →
  PrepareBlock a (height e) got w = (inl (Some bsr, Some cs), w') →
  (run (BuildBlock PrepareBlock txs n) e).1 = inl got ∧
  slot (receiver (run (BuildBlock PrepareBlock txs n) e).2) = (got, Some cs, Some bsr).
Proof.
  intros a H1 H2. unfold BuildBlock; body. fold a.
  rewrite H1; cbn. rewrite H2; cbn. done.
Qed.

(** C10.  Two [BuildBlock] calls that differ only in the transaction
    list passed in return the same list and error and leave the same
    state: the argument is overwritten by the pool's answer before it
    is read. *)
Theorem BuildBlock_argument_unused (txs1 txs2 : slice Tx) (n : N) (e : Node) :
  run (BuildBlock PrepareBlock txs1 n) e = run (BuildBlock PrepareBlock txs2 n) e ∧
  invoke (BuildBlock PrepareBlock txs1 n) e = invoke (BuildBlock PrepareBlock txs2 n) e.
Proof. split; reflexivity. Qed.

(** ** Simulate and Query *)

(** C8, as the code has it.  [Simulate] fails exactly when the
    read-only view at the last committed height cannot be had, with the
    store's error as it is; otherwise it returns, with no error, the
    result of the engine's simulate run on that view with
    [simulationGasLimit]. *)
Theorem Simulate_result (tx : slice byte) (e : Node) :
  let a := receiver e in
  let view := ReadonlyStateAt (db a) (height e) (world e) in
  ((∃ x, (invoke (Simulate tx) e).1 = inr x) ↔ (∃ x, view.1 = inr x)) ∧
  match view.1 with
  | inr x =>
      invoke (Simulate tx) e
      = (inr (Foreign x),
         MkEnv a (height e) view.2 (trace e ++ [CallReadonlyStateAt (height e) (inr x)]))
  | inl st =>
      let r := stf_Simulate (stf a) st (simulationGasLimit a) tx view.2 in
      invoke (Simulate tx) e
      = (inl r.1,
         MkEnv a (height e) r.2
           (trace e ++ [CallReadonlyStateAt (height e) (inl st);
                        CallStfSimulate st (simulationGasLimit a) tx r.1]))
  end.
Proof.
  intros a view. subst a view. unfold Simulate; body.
  destruct (ReadonlyStateAt _ _ _) as [[st | x] w]; cbn.
  - split; [| by rewrite <- app_assoc].
    split; intros [y Hy]; discriminate.
  - split; [| done]. split; eauto.
Qed.

(** [Query] hands back what the engine's query handler answered. *)
Lemma Query_result (request : QType) (e : Node) :
  let a := receiver e in
  let view := ReadonlyStateAt (db a) (height e) (world e) in
  (invoke (Query request) e).1 =
  match view.1 with
  | inr x => inr (Foreign x)
  | inl st =>
      match (stf_Query (stf a) st (queryGasLimit a) request view.2).1 with
      | inl response => inl response
      | inr x => inr (Foreign x)
      end
  end.
Proof.
  intros a view. subst a view. unfold Query; body.
  by destruct (ReadonlyStateAt _ _ _) as [[st | x] w].
Qed.

(** X10.  A successful [BuildBlock] has asked the pool once, with the size
    it was given, and has run [PrepareBlock] once, on the list the pool
    answered; it made no other call, and it returns that list. *)
Theorem BuildBlock_success (txs : slice Tx) (n : N) (e : Node) (got : slice Tx) :
  (invoke (BuildBlock PrepareBlock txs n) e).1 = inl got →
  ∃ prepared,
    trace (invoke (BuildBlock PrepareBlock txs n) e).2
    = trace e ++ [CallGetTxs n (inl got); CallPrepareBlock got (inl prepared)].
Proof.
  unfold BuildBlock; body.
  repeat (first [answer | branch]); intros [= <-]; rewrite <- app_assoc; eauto.
Qed.

(** X11.  [Query] fails with the store's error, the engine not asked, when
    the read-only view at the last committed height cannot be had;
    otherwise it asks the engine's query handler once, on that view
    with [queryGasLimit], and returns its response or its error as it
    is. *)
Theorem Query_outcome (request : QType) (e : Node) :
  let a := receiver e in
  let view := ReadonlyStateAt (db a) (height e) (world e) in
  match view.1 with
  | inr x =>
      invoke (Query request) e
      = (inr (Foreign x),
         MkEnv a (height e) view.2 (trace e ++ [CallReadonlyStateAt (height e) (inr x)]))
  | inl st =>
      let r := stf_Query (stf a) st (queryGasLimit a) request view.2 in
      invoke (Query request) e
      = (match r.1 with inl response => inl response | inr x => inr (Foreign x) end,
         MkEnv a (height e) r.2
           (trace e ++ [CallReadonlyStateAt (height e) (inl st);
                        CallStfQuery st (queryGasLimit a) request r.1]))
  end.
Proof.
  intros a view. subst a view. unfold Query; body.
  destruct (ReadonlyStateAt _ _ _) as [[st | x] w]; cbn; [| done].
  by rewrite <- app_assoc.
Qed.

(** X12.  [Simulate] and [Query] never call the store's [CommitState] and
    never call the engine's [DeliverBlock]. *)
Theorem reads_commit_nothing (tx : slice byte) (request : QType) (e : Node) :
  (committed (trace (invoke (Simulate tx) e).2) = committed (trace e) ∧
   executions (trace (invoke (Simulate tx) e).2) = executions (trace e)) ∧
  (committed (trace (invoke (Query request) e).2) = committed (trace e) ∧
   executions (trace (invoke (Query request) e).2) = executions (trace e)).
Proof.
  unfold Simulate, Query; body.
  repeat split; repeat (first [answer | branch]); tally; done.
Qed.

(** [Simulate] and [Query] begin by asking the store for the view at
    the height found in the cell. *)
Lemma view_is_first_call (tx : slice byte) (request : QType) (e : Node) :
  (∃ view rest,
     trace (invoke (Simulate tx) e).2
     = trace e ++ CallReadonlyStateAt (height e) view :: rest) ∧
  (∃ view rest,
     trace (invoke (Query request) e).2
     = trace e ++ CallReadonlyStateAt (height e) view :: rest).
Proof.
  unfold Simulate, Query; body.
  destruct (ReadonlyStateAt _ _ _) as [[st | x] w]; cbn;
    rewrite <- ?app_assoc; split; eauto.
Qed.

(** X13.  The height that [DeliverBlock] stored is the one the next
    [Simulate] and the next [Query] ask the store for: after a delivery
    that went through the engine, both open their view at the height of
    the delivered block. *)
Theorem view_after_delivery (block : BlockRequest) (e : Node)
    (r : option BlockResponse * Hash) (tx : slice byte) (request : QType) :
  (invoke (DeliverBlock block) e).1 = inl r →
  executions (trace (invoke (DeliverBlock block) e).2) = S (executions (trace e)) →
  (∃ view rest,
     trace (invoke (Simulate tx) (invoke (DeliverBlock block) e).2).2
     = trace (invoke (DeliverBlock block) e).2
       ++ CallReadonlyStateAt (Height block) view :: rest) ∧
  (∃ view rest,
     trace (invoke (Query request) (invoke (DeliverBlock block) e).2).2
     = trace (invoke (DeliverBlock block) e).2
       ++ CallReadonlyStateAt (Height block) view :: rest).
Proof.
  intros Hok Hex.
  rewrite <- (DeliverBlock_executed_height block e r Hok Hex).
  apply view_is_first_call.
Qed.

(** C9.  [Query] and [Simulate] change neither the last committed
    height nor the slot, in the body and hence for the caller; and
    [BuildBlock] does not write the height either, which leaves
    [DeliverBlock] as its only writer. *)
Theorem Query_Simulate_frame (tx : slice byte) (request : QType)
    (txs : slice Tx) (n : N) (e : Node) :
  (owned (run (Simulate tx) e).2 = owned e ∧ owned (invoke (Simulate tx) e).2 = owned e) ∧
  (owned (run (Query request) e).2 = owned e ∧ owned (invoke (Query request) e).2 = owned e) ∧
  (height (run (BuildBlock PrepareBlock txs n) e).2 = height e ∧
   height (invoke (BuildBlock PrepareBlock txs n) e).2 = height e).
Proof.
  unfold owned, Simulate, Query, BuildBlock; body.
  repeat split; repeat (first [answer | branch]); done.
Qed.

(** ** Genesis *)

Lemma initialized_snoc (tr : list Call) m p r :
  initialized (tr ++ [CallInitGenesis m p r]) = initialized tr ++ [(m, p)].
Proof. unfold initialized. by rewrite omap_app. Qed.

(** The loop invokes the initializers of a prefix of the entries, one
    call each and in order, every one with the payload of its module in
    [genesisMap], or nil; the prefix is the whole list when it returns
    nil, and otherwise ends at the failing module, which the error
    names. *)
Lemma genesis_range_calls genesisMap entries (w : World) (tr : list Call) :
  let out := genesis_range genesisMap entries w tr in
  ∃ called rest,
    entries = called ++ rest ∧
    initialized out.2 = initialized tr ++ (given genesisMap <$> called) ∧
    match out.1.1 with
    | None => rest = []
    | Some x =>
        ∃ module genesisFunc cause,
          last called = Some (module, genesisFunc) ∧
          x = Msgf ("failed to init genesis on module: " +:+ module) ∧
          last out.2 = Some (CallInitGenesis module (index genesisMap module) (Some cause))
    end.
Proof.
  revert w tr; induction entries as [|[module genesisFunc] entries IH];
    intros w tr; cbn -[initialized].
  - exists [], []. cbn -[initialized]. by rewrite app_nil_r.
  - destruct (genesisFunc (index genesisMap module) w) as [[cause|] w'] eqn:E;
      cbn -[initialized].
    + exists [(module, genesisFunc)], entries. split; [done |].
      rewrite initialized_snoc. split; [done |].
      exists module, genesisFunc, cause. by rewrite last_snoc.
    + destruct (IH w' (tr ++ [CallInitGenesis module (index genesisMap module) None]))
        as (called & rest & -> & Hi & Hr).
      exists ((module, genesisFunc) :: called), rest. split; [done |].
      rewrite Hi, initialized_snoc, <- app_assoc. split; [done |].
      destruct (genesis_range _ _ _ _).1.1; [| done].
      destruct Hr as (m & f & c & Hl & Hx & Ht).
      exists m, f, c. split; [| done].
      destruct called; [done | by rewrite last_cons, Hl].
Qed.

(** The closure of [Build] looks every module up in a map it has just
    made empty: whatever [genesisBytes] holds, each initializer it
    invokes is given nil. *)
Lemma genesis_gives_nil iteration b genesisBytes (w : World) (tr : list Call) :
  genesis iteration b genesisBytes w tr = genesis iteration b None w tr ∧
  ∃ called,
    called `prefix_of` iteration (InitGenesis b) ∧
    initialized (genesis iteration b genesisBytes w tr).2
    = initialized tr ++ ((λ entry, (entry.1, None)) <$> called).
Proof.
  split; [done |]. unfold genesis.
  destruct (genesis_range_calls ∅ (iteration (InitGenesis b)) w tr)
    as (called & rest & Hc & Hi & _).
  exists called. split; [by exists rest |].
  rewrite Hi. reflexivity.
Qed.

(** X14.  When no initializer fails, each registered module is initialized
    exactly once, whatever the order of iteration. *)
Lemma genesis_once iteration b genesisBytes (w : World) :
  (∀ m : gmap string Initializer, iteration m ≡ₚ map_to_list m) →
  (genesis iteration b genesisBytes w (@nil Call)).1.1 = None →
  let modules := (initialized (genesis iteration b genesisBytes w (@nil Call)).2).*1 in
  NoDup modules ∧ ∀ module, module ∈ modules ↔ is_Some (InitGenesis b !! module).
Proof.
  intros Hperm Hok modules. subst modules. unfold genesis in *.
  destruct (genesis_range_calls ∅ (iteration (InitGenesis b)) w [])
    as (called & rest & Hc & Hi & Hr).
  rewrite Hok in Hr. subst rest. rewrite app_nil_r in Hc. subst called.
  rewrite Hi; cbn. rewrite <- list_fmap_compose.
  change (fst ∘ given ∅) with (@fst string (@Initializer ExtError World)).
  split.
  - rewrite (Hperm (InitGenesis b)). apply NoDup_fst_map_to_list.
  - intros module. rewrite (Hperm (InitGenesis b)), list_elem_of_fmap. split.
    + intros ([m f] & -> & Hin%elem_of_map_to_list). eauto.
    + intros [f Hf]. exists (module, f). split; [done |].
      by apply elem_of_map_to_list.
Qed.

(** X15.  When an initializer fails, the error names a registered module,
    whose initializer was the last one invoked and the one that failed;
    no module was initialized twice before it. *)
Theorem genesis_failure iteration b genesisBytes (w : World) (x : error ExtError) :
  (∀ m : gmap string Initializer, iteration m ≡ₚ map_to_list m) →
  (genesis iteration b genesisBytes w (@nil Call)).1.1 = Some x →
  ∃ module cause,
    x = Msgf ("failed to init genesis on module: " +:+ module) ∧
    is_Some (InitGenesis b !! module) ∧
    last (genesis iteration b genesisBytes w (@nil Call)).2
    = Some (CallInitGenesis module None (Some cause)) ∧
    NoDup (initialized (genesis iteration b genesisBytes w (@nil Call)).2).*1.
Proof.
  intros Hperm Hx. unfold genesis in *.
  destruct (genesis_range_calls ∅ (iteration (InitGenesis b)) w [])
    as (called & rest & Hc & Hi & Hr).
  rewrite Hx in Hr. destruct Hr as (module & f & cause & Hl & -> & Ht).
  assert (NoDup (called ++ rest).*1) as Hnd.
  { rewrite <- Hc, (Hperm (InitGenesis b)). apply NoDup_fst_map_to_list. }
  exists module, cause. split; [done |]. split; [| split; [done |]].
  - exists f. apply elem_of_map_to_list. rewrite <- (Hperm (InitGenesis b)), Hc.
    apply elem_of_app. left. by apply last_Some_elem_of.
  - rewrite Hi; cbn. rewrite <- list_fmap_compose.
    change (fst ∘ given ∅) with (@fst string (@Initializer ExtError World)).
    rewrite fmap_app in Hnd. by apply NoDup_app in Hnd as [? _].
Qed.

(** X16.  Registering a module a second time replaces its initializer:
    genesis then runs as on a builder that has only seen the later
    registration. *)
Theorem genesis_after_reregistration iteration (b : AppManagerBuilder)
    (module : string) (first second : Initializer) genesisBytes (w : World)
    (tr : list Call) :
  genesis iteration
    (RegisterInitGenesis module second (RegisterInitGenesis module first b))
    genesisBytes w tr
  = genesis iteration (RegisterInitGenesis module second b) genesisBytes w tr.
Proof.
  unfold genesis, RegisterInitGenesis; cbn. by rewrite insert_insert_eq.
Qed.

End Properties.

(** * The code on concrete blocks *)

Module Runs.

Import Scenario.

(** C1.  The slot holds the batch built from [A; B] and block 5 carries
    exactly [A; B]; the loops compare [A] with [B], set [diff], and
    the block goes through the engine: the response is the engine's,
    what is committed is derived from the execution, and neither is the
    cached one. *)
Theorem same_list_is_executed_again :
  let block := MkBlock 5 (Some [A; B]) in
  let after := invoke (DeliverBlock block) (node cached) in
  Tx_bytes <$> elems (cachedTx cached) = elems (Txs block) ∧
  slot cached = (Some [MkTx A "a"; MkTx B "b"], Some ["CS1"], Some "R1") ∧
  after.1 = inl (Some "executed", [Some ["A"; "B"]]) ∧
  executions (trace after.2) = 1 ∧
  committed (trace after.2) = [Some ["A"; "B"]].
Proof. vm_compute. done. Qed.

(** C2.  A block with no transaction, or with one transaction more than
    the cached list, finds no differing pair: the cached change-sets are
    committed and the cached response returned, the engine not entered. *)
Theorem different_list_reuses_batch :
  let empty := invoke (DeliverBlock (MkBlock 5 (Some []))) (node cached) in
  let extra := invoke (DeliverBlock (MkBlock 5 (Some [A; A]))) (node (holding [MkTx A "a"])) in
  (empty.1 = inl (Some "R1", [Some ["CS1"]]) ∧
   executions (trace empty.2) = 0 ∧ committed (trace empty.2) = [Some ["CS1"]]) ∧
  (extra.1 = inl (Some "R1", [Some ["CS1"]]) ∧
   executions (trace extra.2) = 0 ∧ committed (trace extra.2) = [Some ["CS1"]]).
Proof. vm_compute. done. Qed.

(** With [A; B] cached, the block [A; C] goes through the engine and
    the cached response is not returned. *)
Example other_list_is_executed :
  let after := invoke (DeliverBlock (MkBlock 5 (Some [A; C]))) (node cached) in
  after.1 = inl (Some "executed", [Some ["A"; "C"]]) ∧
  executions (trace after.2) = 1 ∧ height after.2 = 5%N.
Proof. vm_compute. done. Qed.

(** C3.  Block 5 is delivered from the cached batch with success, and
    the last committed height is still 4. *)
Theorem reuse_leaves_height :
  let after := invoke (DeliverBlock (MkBlock 5 (Some [A]))) (node (holding [MkTx A "a"])) in
  after.1 = inl (Some "R1", [Some ["CS1"]]) ∧
  height (node (holding [MkTx A "a"])) = 4%N ∧
  height after.2 = 4%N.
Proof. vm_compute. done. Qed.

(** C4 on a block whose height the store cannot anchor: the failed
    call to [NewStateAt] makes the delivery fail with the anchor label,
    and the height stays 4. *)
Lemma DeliverBlock_failure_at_height_0 :
  let block := MkBlock 0 None in
  let failed := CallNewStateAt 0 (inr "no state before height 0") in
  failed ∈ trace (invoke (DeliverBlock block) (node fresh)).2 ∧
  (invoke (DeliverBlock block) (node fresh)).1
  = inr (Wrapf "unable to create new state for height 0"
           (Foreign "no state before height 0")) ∧
  height (invoke (DeliverBlock block) (node fresh)).2 = 4%N.
Proof.
  intros block failed.
  destruct (DeliverBlock_failure block (node fresh)) as (new & Htr & Hstage & _).
  change (trace (invoke (DeliverBlock block) (node fresh)).2 = new) in Htr.
  assert (failed ∈ new) as Hin by (rewrite <- Htr; vm_compute; constructor).
  destruct (Hstage failed Anchor "no state before height 0" Hin eq_refl) as (Hr & _ & Hh).
  split; [by rewrite Htr |]. split; [exact Hr | exact Hh].
Defined.

(** C5 as stated fails.  After a delivery the slot still passes the test
    that guards reuse, and the next delivery, with no [BuildBlock] in
    between, is served from it again. *)
Lemma slot_survives_delivery :
  let first := invoke (DeliverBlock (MkBlock 5 (Some [A]))) (node (holding [MkTx A "a"])) in
  let second := invoke (DeliverBlock (MkBlock 6 (Some [A]))) first.2 in
  invalidated (receiver first.2) = false ∧
  second.1 = inl (Some "R1", [Some ["CS1"]; Some ["CS1"]]) ∧
  executions (trace second.2) = 0.
Proof. vm_compute. done. Qed.

(** C6.  Genesis bytes that carry a payload for the module bank: its
    initializer is invoked with nil. *)
Theorem genesis_drops_payload :
  let genesisBytes := Some (String.list_byte_of_string "bank: supply=1000") in
  let out := genesis map_to_list builder genesisBytes [] (@nil event) in
  out.1.1 = None ∧ initialized out.2 = [("bank", None)].
Proof. vm_compute. done. Qed.

(** C7.  The pool offers [A] and [PrepareBlock] yields a response and
    change-sets.  The body assigns the batch to its copy of the struct;
    the coordinator that made the call has an empty slot as before, and
    the delivery of the very list returned goes through the engine. *)
Theorem BuildBlock_stores_nothing :
  let body := run (BuildBlock prepare None 10) (node fresh) in
  let after := invoke (BuildBlock prepare None 10) (node fresh) in
  let next := invoke (DeliverBlock (MkBlock 5 (Some [A]))) after.2 in
  after.1 = inl (Some [MkTx A "a"]) ∧
  slot (receiver body.2) = (Some [MkTx A "a"], Some ["CS1"], Some "R1") ∧
  slot (receiver after.2) = (None, None, None) ∧
  executions (trace next.2) = 1.
Proof. vm_compute. done. Qed.

(** C8 as stated fails.  The engine's simulate fails on an empty
    transaction and says so in its result; the view was acquired, and
    [Simulate] returns that result with no error. *)
Lemma engine_failure_is_no_error :
  let e := node fresh in
  let view := ReadonlyStateAt store (height e) (world e) in
  let result := stf_Simulate engine 4%N (simulationGasLimit fresh) None view.2 in
  ¬ ((∃ x, (invoke (Simulate None) e).1 = inr x) ↔
     ((∃ x, view.1 = inr x) ∨ is_Some (Error result.1))).
Proof.
  intros e view result [_ H].
  destruct H as [x Hx]; [right; vm_compute; eauto | vm_compute in Hx; discriminate].
Qed.

End Runs.

(** * The general statements at work on the concrete nodes *)

Module Instances.

Import Scenario Faulty.

(** Block 5 with [A], delivered from the slot that holds [A]. *)
Lemma DeliverBlock_reuse_on_A :
  invoke (DeliverBlock (MkBlock 5 (Some [A]))) (node (holding [MkTx A "a"]))
  = (inl (Some "R1", [Some ["CS1"]]),
     MkEnv (holding [MkTx A "a"]) 4 [Some ["CS1"]]
       [CallNewStateAt 5 (inl 5%N); CallCommitState (Some ["CS1"]) (inl [Some ["CS1"]])]).
Proof.
  exact (DeliverBlock_reuse (MkBlock 5 (Some [A])) (node (holding [MkTx A "a"]))
           5%N [] [Some ["CS1"]] [Some ["CS1"]]
           eq_refl eq_refl eq_refl eq_refl eq_refl).
Defined.

(** Block 5 with [A; C], executed against the slot that holds [A; B]. *)
Lemma DeliverBlock_execute_on_AC :
  invoke (DeliverBlock (MkBlock 5 (Some [A; C]))) (node cached)
  = (inl (Some "executed", [Some ["A"; "C"]]),
     MkEnv cached 5 [Some ["A"; "C"]]
       [CallNewStateAt 5 (inl 5%N);
        CallStfDeliverBlock (MkBlock 5 (Some [A; C])) 5%N (inl (Some "executed", [A; C]));
        CallChangeSets [A; C] (inl (Some ["A"; "C"]));
        CallCommitState (Some ["A"; "C"]) (inl [Some ["A"; "C"]])]).
Proof.
  exact (DeliverBlock_execute (MkBlock 5 (Some [A; C])) (node cached)
           5%N [] (Some "executed") [A; C] [] (Some ["A"; "C"]) []
           [Some ["A"; "C"]] [Some ["A"; "C"]]
           eq_refl (or_intror (or_intror eq_refl)) eq_refl eq_refl eq_refl).
Defined.

Lemma DeliverBlock_success_on_A :
  let e := node (holding [MkTx A "a"]) in
  let block := MkBlock 5 (Some [A]) in
  let r := (Some "R1", [Some ["CS1"]]) in
  (invoke (DeliverBlock block) e).1 = inl r ∧
  ((executions (trace (invoke (DeliverBlock block) e).2) = executions (trace e) + 1 ∧
    height (invoke (DeliverBlock block) e).2 = Height block ∧
    ∃ cs, committed (trace (invoke (DeliverBlock block) e).2) = committed (trace e) ++ [cs])
   ∨
   (executions (trace (invoke (DeliverBlock block) e).2) = executions (trace e) ∧
    height (invoke (DeliverBlock block) e).2 = height e ∧
    invalidated (receiver e) = false ∧
    range_cached (elems (cachedTx (receiver e))) (elems (Txs block)) false = false ∧
    r.1 = cachedBlockResponse (receiver e) ∧
    committed (trace (invoke (DeliverBlock block) e).2)
    = committed (trace e) ++ [cachedState (receiver e)])).
Proof.
  intros e block r.
  assert ((invoke (DeliverBlock block) e).1 = inl r) as H by (vm_compute; reflexivity).
  exact (conj H (DeliverBlock_success block e r H)).
Defined.

(** The engine has executed block 5 and the store cannot commit. *)
Lemma DeliverBlock_failure_on_full_disk :
  let e := node unwritable in
  let block := MkBlock 5 (Some [A]) in
  let x := Wrapf "commit failed" (Foreign "disk full") in
  (invoke (DeliverBlock block) e).1 = inr x ∧
  committed (trace (invoke (DeliverBlock block) e).2) = committed (trace e) ∧
  executions (trace (invoke (DeliverBlock block) e).2) ≤ executions (trace e) + 1.
Proof.
  intros e block x.
  assert ((invoke (DeliverBlock block) e).1 = inr x) as H by (vm_compute; reflexivity).
  exact (conj H (DeliverBlock_failure_commits_nothing block e x H)).
Defined.

Lemma DeliverBlock_reuses_iff_on_A :
  let e := node (holding [MkTx A "a"]) in
  let block := MkBlock 5 (Some [A; A]) in
  NewStateAt (db (receiver e)) (Height block) (world e) = (inl 5%N, []) ∧
  (executions (trace (invoke (DeliverBlock block) e).2) = executions (trace e) ↔
   invalidated (receiver e) = false ∧
   ∀ c tx, c ∈ elems (cachedTx (receiver e)) → tx ∈ elems (Txs block) →
           elems (Tx_bytes c) = elems tx).
Proof.
  intros e block.
  exact (conj eq_refl (DeliverBlock_reuses_iff block e 5%N [] eq_refl)).
Defined.

Lemma DeliverBlock_nocache_success_on_A :
  let e := node fresh in
  let block := MkBlock 5 (Some [A]) in
  let r := (Some "executed", [Some ["A"]]) in
  (invoke (DeliverBlock_nocache block) e).1 = inl r ∧
  height (invoke (DeliverBlock_nocache block) e).2 = Height block ∧
  executions (trace (invoke (DeliverBlock_nocache block) e).2) = executions (trace e) + 1 ∧
  ∃ cs, committed (trace (invoke (DeliverBlock_nocache block) e).2)
        = committed (trace e) ++ [cs].
Proof.
  intros e block r.
  assert ((invoke (DeliverBlock_nocache block) e).1 = inl r) as H
    by (vm_compute; reflexivity).
  exact (conj H (DeliverBlock_nocache_success block e r H)).
Defined.

(** The engine rejects block 5. *)
Lemma DeliverBlock_nocache_failure_on_rejection :
  let e := node stuck in
  let block := MkBlock 5 (Some [A]) in
  let x := Wrapf "block delivery failed" (Foreign "invalid block") in
  (invoke (DeliverBlock_nocache block) e).1 = inr x ∧
  height (invoke (DeliverBlock_nocache block) e).2 = height e ∧
  committed (trace (invoke (DeliverBlock_nocache block) e).2) = committed (trace e) ∧
  ∃ st cause ev,
    x = Wrapf (stage_label st (Height block)) (Foreign cause) ∧
    last (trace (invoke (DeliverBlock_nocache block) e).2) = Some ev ∧
    failed_stage ev = Some (st, cause).
Proof.
  intros e block x.
  assert ((invoke (DeliverBlock_nocache block) e).1 = inr x) as H
    by (vm_compute; reflexivity).
  exact (conj H (DeliverBlock_nocache_failure block e x H)).
Defined.

Lemma DeliverBlock_without_slot_on_fresh :
  invalidated (receiver (node fresh)) = true ∧
  invoke (DeliverBlock (MkBlock 5 (Some [A]))) (node fresh)
  = invoke (DeliverBlock_nocache (MkBlock 5 (Some [A]))) (node fresh).
Proof.
  exact (conj eq_refl (DeliverBlock_without_slot (MkBlock 5 (Some [A])) (node fresh) eq_refl)).
Defined.

(** The pool is closed. *)
Lemma BuildBlock_failure_on_closed_pool :
  let e := node starved in
  let x := Foreign "pool closed" in
  (run (BuildBlock prepare None 10) e).1 = inr x ∧
  receiver (run (BuildBlock prepare None 10) e).2 = receiver e ∧
  ∃ cause ev,
    x = Foreign cause ∧
    last (trace (run (BuildBlock prepare None 10) e).2) = Some ev ∧
    (ev = CallGetTxs 10 (inr cause) ∨ ∃ got, ev = CallPrepareBlock got (inr cause)).
Proof.
  intros e x.
  assert ((run (BuildBlock prepare None 10) e).1 = inr x) as H by (vm_compute; reflexivity).
  exact (conj H (BuildBlock_failure prepare None 10 e x H)).
Defined.

Lemma BuildBlock_success_on_fresh :
  let e := node fresh in
  let got := Some [MkTx A "a"] in
  (invoke (BuildBlock prepare (Some [MkTx B "b"]) 10) e).1 = inl got ∧
  ∃ prepared,
    trace (invoke (BuildBlock prepare (Some [MkTx B "b"]) 10) e).2
    = trace e ++ [CallGetTxs 10 (inl got); CallPrepareBlock got (inl prepared)].
Proof.
  intros e got.
  assert ((invoke (BuildBlock prepare (Some [MkTx B "b"]) 10) e).1 = inl got) as H
    by (vm_compute; reflexivity).
  exact (conj H (BuildBlock_success prepare (Some [MkTx B "b"]) 10 e got H)).
Defined.

(** Block 9 is executed on the node at height 4; the views that follow
    are opened at height 9. *)
Lemma view_after_delivery_of_9 :
  let e := node fresh in
  let block := MkBlock 9 (Some [A]) in
  (∃ view rest,
     trace (invoke (Simulate B) (invoke (DeliverBlock block) e).2).2
     = trace (invoke (DeliverBlock block) e).2
       ++ CallReadonlyStateAt (Height block) view :: rest) ∧
  (∃ view rest,
     trace (invoke (Query "balance") (invoke (DeliverBlock block) e).2).2
     = trace (invoke (DeliverBlock block) e).2
       ++ CallReadonlyStateAt (Height block) view :: rest).
Proof.
  intros e block.
  exact (view_after_delivery block e (Some "executed", [Some ["A"]]) B "balance"
           eq_refl eq_refl).
Defined.

Lemma genesis_once_on_bank :
  let modules := (initialized (genesis map_to_list builder None [] (@nil event)).2).*1 in
  NoDup modules ∧ ∀ module, module ∈ modules ↔ is_Some (InitGenesis builder !! module).
Proof.
  exact (genesis_once map_to_list builder None [] (λ m, reflexivity _) eq_refl).
Defined.

(** Two modules registered; the initializer of staking fails. *)
Lemma genesis_failure_on_staking :
  let x := Msgf "failed to init genesis on module: staking" in
  (genesis map_to_list broken_builder None [] (@nil event)).1.1 = Some x ∧
  ∃ module cause,
    x = Msgf ("failed to init genesis on module: " +:+ module) ∧
    is_Some (InitGenesis broken_builder !! module) ∧
    last (genesis map_to_list broken_builder None [] (@nil event)).2
    = Some (CallInitGenesis module None (Some cause)) ∧
    NoDup (initialized (genesis map_to_list broken_builder None [] (@nil event)).2).*1.
Proof.
  intros x.
  assert ((genesis map_to_list broken_builder None [] (@nil event)).1.1 = Some x) as H
    by (vm_compute; reflexivity).
  exact (conj H (genesis_failure map_to_list broken_builder None [] x
                   (λ m, reflexivity _) H)).
Defined.

End Instances.
